(** * Package gpio: enumerations, textual conversions and capability interfaces

    A shallow embedding of [gpio/gpio.go].  The package declares three
    integer-backed enumeration types with their [String] methods and a
    family of single-method interfaces together with two aggregates built
    by interface embedding.

    - A Go [int] is modelled as [Z].  The package performs no arithmetic on
      its enumerations, so no wrap-around occurs; statements quantified over
      every [Z] hold in particular for every 32-bit and every 64-bit [int].
    - A call either returns or panics; the rest of the program state (the
      "world") is threaded explicitly through every call.
    - An interface is the list of its elements, each a method specification
      or an embedded interface; satisfaction is Go's structural rule on
      method sets. *)

From Stdlib Require Import ZArith String List Bool Lia.
From Stdlib Require Import Sorting.Permutation.
Import ListNotations.

Local Open Scope Z_scope.
Local Open Scope string_scope.

(** ** Go calls: normal return, panic, and the threaded world *)

Module GoRuntime.

Inductive Outcome (A : Type) : Type :=
| Returned (a : A)
| Panicked (msg : string).

Arguments Returned {A} a.
Arguments Panicked {A} msg.

Section Calls.
Context {World : Type}.

(** A call takes the world and yields an outcome and the world after it. *)
Definition Go (A : Type) : Type := World -> Outcome A * World.

(** [return a]. *)
Definition ret {A : Type} (a : A) : Go A :=
  fun w => (Returned a, w).

(** [panic(msg)]. *)
Definition panic {A : Type} (msg : string) : Go A :=
  fun w => (Panicked msg, w).

(** An expression switch over integer constants: the cases are tried in
    source order, the first one equal to the tag runs, and the default
    clause runs when there is none. *)
Fixpoint switch {A : Type} (tag : Z) (cases : list (Z * Go A))
         (default : Go A) : Go A :=
  match cases with
  | [] => default
  | (c, body) :: rest =>
      if Z.eqb tag c then body else switch tag rest default
  end.

Definition outcome {A : Type} (m : Go A) (w : World) : Outcome A :=
  fst (m w).

Definition world_after {A : Type} (m : Go A) (w : World) : World :=
  snd (m w).

End Calls.

Arguments Go : clear implicits.

Definition panics {A : Type} (o : Outcome A) : bool :=
  match o with
  | Returned _ => false
  | Panicked _ => true
  end.

End GoRuntime.

Import GoRuntime.

(** ** The package *)

Module gpio.

(** [type Value int], [type Direction int], [type EdgeSensitivity int]. *)
Definition Value : Type := Z.
Definition Direction : Type := Z.
Definition EdgeSensitivity : Type := Z.

Definition Low : Value := 0.
Definition High : Value := 1.

Definition In : Direction := 0.
Definition Out : Direction := 1.

Definition NoEdges : EdgeSensitivity := 0.
Definition RisingEdge : EdgeSensitivity := 1.
Definition FallingEdge : EdgeSensitivity := 2.
Definition BothEdges : EdgeSensitivity := 3.

(** The constants of each [const] block, in declaration order. *)
Definition Value_tags : list Value := [Low; High].
Definition Direction_tags : list Direction := [In; Out].
Definition EdgeSensitivity_tags : list EdgeSensitivity :=
  [NoEdges; RisingEdge; FallingEdge; BothEdges].

(** The zero value of a Go type whose underlying type is [int]: what a
    variable declared without an initialiser holds. *)
Definition zero_int : Z := 0.
Definition Value_zero : Value := zero_int.
Definition Direction_zero : Direction := zero_int.
Definition EdgeSensitivity_zero : EdgeSensitivity := zero_int.

Section Methods.
Context {World : Type}.

(** [func (value Value) String() string] *)
Definition Value_String (value : Value) : Go World string :=
  switch value
    [ (Low, ret "Low");
      (High, ret "High") ]
    (panic "Cannot String Invalid Value").

(** [func (direction Direction) String() string] *)
Definition Direction_String (direction : Direction) : Go World string :=
  switch direction
    [ (In, ret "In");
      (Out, ret "Out") ]
    (panic "Cannot String Invalid Direction").

(** [func (sensitivity EdgeSensitivity) String() string]; the cases are
    in the order of the source. *)
Definition EdgeSensitivity_String (sensitivity : EdgeSensitivity)
  : Go World string :=
  switch sensitivity
    [ (NoEdges, ret "NoEdges");
      (BothEdges, ret "BothEdges");
      (RisingEdge, ret "RisingEdge");
      (FallingEdge, ret "FallingEdge") ]
    (panic "Cannot String Invalid EdgeSensitivity").

End Methods.

(** *** Interfaces *)

(** The types that occur in the package's method signatures. *)
Inductive GoType : Type :=
| TValue
| TDirection
| TEdgeSensitivity
| TError.

(** A method specification: its name, parameter types and result types.
    Parameter and result names are not part of a Go signature. *)
Record Method : Type := mkMethod {
  m_name : string;
  m_params : list GoType;
  m_results : list GoType
}.

(** An interface element is a method specification or an embedded
    interface, itself a list of elements. *)
#[local] Unset Elimination Schemes.
Inductive Elem : Type :=
| Spec (m : Method)
| Embedded (elems : list Elem).

#[local] Set Elimination Schemes.

Definition Interface : Type := list Elem.

Definition ValueSetter : Interface :=
  [ Spec (mkMethod "SetValue" [TValue] [TError]) ].

Definition ValueGetter : Interface :=
  [ Spec (mkMethod "Value" [] [TValue; TError]) ].

Definition DirectionSetter : Interface :=
  [ Spec (mkMethod "SetDirection" [TDirection] [TError]) ].

Definition PullStopper : Interface :=
  [ Spec (mkMethod "StopPulling" [] [TError]) ].

Definition UpPuller : Interface :=
  [ Spec (mkMethod "PullUp" [] [TError]) ].

Definition DownPuller : Interface :=
  [ Spec (mkMethod "PullDown" [] [TError]) ].

Definition Puller : Interface :=
  [ Embedded UpPuller;
    Embedded DownPuller;
    Embedded PullStopper ].

Definition GpioPin : Interface :=
  [ Embedded ValueGetter;
    Embedded ValueSetter;
    Embedded DirectionSetter ].

Definition EdgeWaiter : Interface :=
  [ Spec (mkMethod "SetSensitivity" [TEdgeSensitivity] [TError]);
    Spec (mkMethod "WaitForEdge" [] [TError]) ].

(** The method set of an interface: its own specifications and those of
    the interfaces it embeds. *)
Fixpoint elem_methods (e : Elem) : list Method :=
  match e with
  | Spec m => [m]
  | Embedded elems => flat_map elem_methods elems
  end.

Definition method_set (i : Interface) : list Method :=
  flat_map elem_methods i.

(** A type, given by the methods declared on it, implements an interface
    when each method of the interface's method set is among them. *)
Definition implements (T : list Method) (i : Interface) : Prop :=
  incl (method_set i) T.

Definition GoType_eqb (a b : GoType) : bool :=
  match a, b with
  | TValue, TValue
  | TDirection, TDirection
  | TEdgeSensitivity, TEdgeSensitivity
  | TError, TError => true
  | _, _ => false
  end.

Fixpoint types_eqb (l1 l2 : list GoType) : bool :=
  match l1, l2 with
  | [], [] => true
  | a :: l1', b :: l2' => GoType_eqb a b && types_eqb l1' l2'
  | _, _ => false
  end.

Definition Method_eqb (m1 m2 : Method) : bool :=
  String.eqb (m_name m1) (m_name m2)
  && types_eqb (m_params m1) (m_params m2)
  && types_eqb (m_results m1) (m_results m2).

Definition implementsb (T : list Method) (i : Interface) : bool :=
  forallb (fun m => existsb (Method_eqb m) T) (method_set i).

End gpio.

(** ** Reading a rendering back

    The package has no parser.  The functions below re-derive a tag from
    the documented literals, the way a round-trip test of the textual
    conversions does. *)

Definition Value_ofLiteral (s : string) : option gpio.Value :=
  if String.eqb s "Low" then Some gpio.Low
  else if String.eqb s "High" then Some gpio.High
  else None.

Definition Direction_ofLiteral (s : string) : option gpio.Direction :=
  if String.eqb s "In" then Some gpio.In
  else if String.eqb s "Out" then Some gpio.Out
  else None.

Definition EdgeSensitivity_ofLiteral (s : string)
  : option gpio.EdgeSensitivity :=
  if String.eqb s "NoEdges" then Some gpio.NoEdges
  else if String.eqb s "RisingEdge" then Some gpio.RisingEdge
  else if String.eqb s "FallingEdge" then Some gpio.FallingEdge
  else if String.eqb s "BothEdges" then Some gpio.BothEdges
  else None.

Definition Value_literals : list string := ["Low"; "High"].
Definition Direction_literals : list string := ["In"; "Out"].
Definition EdgeSensitivity_literals : list string :=
  ["NoEdges"; "RisingEdge"; "FallingEdge"; "BothEdges"].

(** ** Properties of a textual conversion over a list of tags *)

Section Statements.
Context {World : Type}.
Variables (tags : list Z) (render : Z -> Go World string)
          (literals : list string) (read : string -> option Z).

(** Rendering a tag returns one of the literals, and reading that
    literal back gives the tag. *)
Definition round_trips (w : World) : Prop :=
  forall t, List.In t tags ->
    exists s, outcome (render t) w = Returned s
              /\ List.In s literals
              /\ read s = Some t.

Definition injective_on_tags (w : World) : Prop :=
  forall t1 t2, List.In t1 tags -> List.In t2 tags ->
    outcome (render t1) w = outcome (render t2) w -> t1 = t2.

End Statements.

(** Case analysis on membership in a list of tags given by its elements. *)
Ltac each_tag H :=
  simpl in H;
  repeat (destruct H as [H | H]; [subst |]);
  [ .. | contradiction ].

(** ** The interface declarations by name *)

(** The nine interface types of the package, in the order of the source. *)
Inductive InterfaceName : Type :=
| IValueSetter
| IValueGetter
| IDirectionSetter
| IPullStopper
| IUpPuller
| IDownPuller
| IPuller
| IGpioPin
| IEdgeWaiter.

Definition declared (name : InterfaceName) : gpio.Interface :=
  match name with
  | IValueSetter => gpio.ValueSetter
  | IValueGetter => gpio.ValueGetter
  | IDirectionSetter => gpio.DirectionSetter
  | IPullStopper => gpio.PullStopper
  | IUpPuller => gpio.UpPuller
  | IDownPuller => gpio.DownPuller
  | IPuller => gpio.Puller
  | IGpioPin => gpio.GpioPin
  | IEdgeWaiter => gpio.EdgeWaiter
  end.

(** [embeds a b]: the declaration of [a] lists [b] as an embedded
    interface. *)
Definition embeds (a b : InterfaceName) : bool :=
  match a, b with
  | IPuller, (IUpPuller | IDownPuller | IPullStopper) => true
  | IGpioPin, (IValueGetter | IValueSetter | IDirectionSetter) => true
  | _, _ => false
  end.

(** A value held at interface type [a] converts to interface type [b]
    when the method set of [a] implements [b]. *)
Definition converts_to (a b : InterfaceName) : Prop :=
  gpio.implements (gpio.method_set (declared a)) (declared b).

(** The interfaces that specify methods of their own, and the method
    specifications of the package's interfaces taken together.  The
    [String] methods of the enumeration types are declared on concrete
    types, belong to no interface, and are not among them. *)
Definition capabilities : list InterfaceName :=
  [ IValueSetter; IValueGetter; IDirectionSetter; IPullStopper;
    IUpPuller; IDownPuller; IEdgeWaiter ].

Definition interface_methods : list gpio.Method :=
  flat_map (fun name => gpio.method_set (declared name)) capabilities.

(** The same on membership in a list of pairs of a tag and its literal. *)
Ltac each_pair H :=
  simpl in H;
  repeat (destruct H as [H | H]; [injection H as <- <- |]);
  [ .. | contradiction ].

(** ** Properties of the runtime model *)

Section SwitchFacts.
Context {World A : Type}.
Implicit Types (cases : list (Z * Go World A)) (d : Go World A).

Lemma switch_miss tag cases d :
  ~ List.In tag (map fst cases) -> switch tag cases d = d.
Proof.
  induction cases as [| [c body] rest IH]; simpl; intros Hnot.
  - reflexivity.
  - destruct (Z.eqb_spec tag c) as [-> | _].
    + exfalso. apply Hnot. now left.
    + apply IH. intros Hin. apply Hnot. now right.
Qed.

Lemma switch_head tag body rest d :
  switch tag ((tag, body) :: rest) d = body.
Proof. simpl. now rewrite Z.eqb_refl. Qed.

Lemma switch_skip tag c body rest d :
  tag <> c -> switch tag ((c, body) :: rest) d = switch tag rest d.
Proof.
  intros Hne. simpl. destruct (Z.eqb_spec tag c); [contradiction | reflexivity].
Qed.

(** A switch runs one of its clauses. *)
Lemma switch_runs_a_clause tag cases d :
  switch tag cases d = d \/ List.In (switch tag cases d) (map snd cases).
Proof.
  induction cases as [| [c body] rest IH]; simpl.
  - now left.
  - destruct (Z.eqb tag c).
    + right. now left.
    + destruct IH as [IH | IH]; [now left | right; now right].
Qed.

End SwitchFacts.

(** ** Properties of method sets *)

Section MethodSets.
Import gpio.

Lemma GoType_eqb_eq a b : GoType_eqb a b = true <-> a = b.
Proof. destruct a, b; simpl; split; intros H; congruence. Qed.

Lemma types_eqb_eq l1 : forall l2, types_eqb l1 l2 = true <-> l1 = l2.
Proof.
  induction l1 as [| a l1 IH]; intros [| b l2]; simpl;
    try (split; intros H; congruence).
  rewrite andb_true_iff, GoType_eqb_eq, IH.
  split; [intros [-> ->]; reflexivity | intros H; inversion H; auto].
Qed.

Lemma Method_eqb_eq m1 m2 : Method_eqb m1 m2 = true <-> m1 = m2.
Proof.
  destruct m1 as [n1 p1 r1], m2 as [n2 p2 r2]. unfold Method_eqb; simpl.
  rewrite !andb_true_iff, String.eqb_eq, !types_eqb_eq.
  split; [intros [[-> ->] ->]; reflexivity | intros H; inversion H; auto].
Qed.

(** The executable check decides Go's satisfaction rule. *)
Lemma implementsb_spec T i : implementsb T i = true <-> implements T i.
Proof.
  unfold implementsb, implements, incl. rewrite forallb_forall.
  split; intros H m Hm.
  - apply H in Hm. rewrite existsb_exists in Hm.
    destruct Hm as (m' & Hin & Heq). apply Method_eqb_eq in Heq. now subst.
  - rewrite existsb_exists. exists m. split; [now apply H | now apply Method_eqb_eq].
Qed.

Lemma method_set_embedded (a : Interface) (rest : Interface) :
  method_set (Embedded a :: rest) = (method_set a ++ method_set rest)%list.
Proof. reflexivity. Qed.

Lemma implements_nil T : implements T [].
Proof. intros m []. Qed.

(** Embedding an interface adds exactly the obligation to implement it. *)
Lemma implements_embedded T a rest :
  implements T (Embedded a :: rest) <-> implements T a /\ implements T rest.
Proof.
  unfold implements. rewrite method_set_embedded.
  split.
  - intros H. split; intros m Hm; apply H, in_or_app; [now left | now right].
  - intros [Ha Hr]. now apply incl_app.
Qed.

Lemma implements_embeds3 T a b c :
  implements T [Embedded a; Embedded b; Embedded c]
  <-> implements T a /\ implements T b /\ implements T c.
Proof.
  rewrite !implements_embedded.
  pose proof (implements_nil T). tauto.
Qed.

End MethodSets.

(** ** The textual conversions *)

(** C1.  On each declared tag the conversion returns the documented
    literal: [Value.String] gives "Low" and "High", [Direction.String]
    gives "In" and "Out", and [EdgeSensitivity.String] gives "NoEdges",
    "RisingEdge", "FallingEdge" and "BothEdges"; the call leaves the world
    untouched. *)
Theorem String_returns_documented_literal :
  forall (World : Type) (w : World),
    gpio.Value_String gpio.Low w = (Returned "Low", w) /\
    gpio.Value_String gpio.High w = (Returned "High", w) /\
    gpio.Direction_String gpio.In w = (Returned "In", w) /\
    gpio.Direction_String gpio.Out w = (Returned "Out", w) /\
    gpio.EdgeSensitivity_String gpio.NoEdges w = (Returned "NoEdges", w) /\
    gpio.EdgeSensitivity_String gpio.RisingEdge w = (Returned "RisingEdge", w) /\
    gpio.EdgeSensitivity_String gpio.FallingEdge w = (Returned "FallingEdge", w) /\
    gpio.EdgeSensitivity_String gpio.BothEdges w = (Returned "BothEdges", w).
Proof.
  intros World w. repeat split.
Qed.

(** C2.  On every integer that is not a declared tag of its enumeration
    the conversion panics, with the message of the default clause, and so
    returns no string at all, be it empty, a default or a sentinel. *)
Theorem String_panics_outside_tags :
  forall (World : Type) (w : World) (n : Z),
    (~ List.In n gpio.Value_tags ->
       outcome (gpio.Value_String n) w
         = Panicked "Cannot String Invalid Value"
       /\ forall s, outcome (gpio.Value_String n) w <> Returned s) /\
    (~ List.In n gpio.Direction_tags ->
       outcome (gpio.Direction_String n) w
         = Panicked "Cannot String Invalid Direction"
       /\ forall s, outcome (gpio.Direction_String n) w <> Returned s) /\
    (~ List.In n gpio.EdgeSensitivity_tags ->
       outcome (gpio.EdgeSensitivity_String n) w
         = Panicked "Cannot String Invalid EdgeSensitivity"
       /\ forall s, outcome (gpio.EdgeSensitivity_String n) w <> Returned s).
Proof.
  intros World w n.
  assert (Hpanic : forall (m : Go World string) msg,
             m = panic msg ->
             outcome m w = Panicked msg /\ forall s, outcome m w <> Returned s).
  { intros m msg ->. split; [reflexivity | intros s; discriminate]. }
  split; [| split]; intros Hout; apply Hpanic;
    unfold gpio.Value_String, gpio.Direction_String, gpio.EdgeSensitivity_String;
    apply switch_miss; simpl; intros Hin; apply Hout; simpl; tauto.
Qed.

Lemma String_panics_outside_tags_witness :
  outcome (gpio.Value_String 2) tt = Panicked "Cannot String Invalid Value" /\
  outcome (gpio.Direction_String (-1)) tt
    = Panicked "Cannot String Invalid Direction" /\
  outcome (gpio.EdgeSensitivity_String 4) tt
    = Panicked "Cannot String Invalid EdgeSensitivity".
Proof.
  split; [| split].
  - apply (String_panics_outside_tags unit tt 2).
    simpl. intros [H | [H | []]]; discriminate H.
  - apply (String_panics_outside_tags unit tt (-1)).
    simpl. intros [H | [H | []]]; discriminate H.
  - apply (String_panics_outside_tags unit tt 4).
    simpl. intros [H | [H | [H | [H | []]]]]; discriminate H.
Defined.

(** *** Round trip through the literals *)

Section RoundTrip.
Context {World : Type}.
Variables (tags : list Z) (render : Z -> Go World string)
          (literals : list string) (read : string -> option Z).

Lemma round_trips_injective w :
  round_trips tags render literals read w -> injective_on_tags tags render w.
Proof.
  intros Hrt t1 t2 H1 H2 Heq.
  destruct (Hrt t1 H1) as (s1 & Ho1 & _ & Hr1).
  destruct (Hrt t2 H2) as (s2 & Ho2 & _ & Hr2).
  rewrite Ho1, Ho2 in Heq. injection Heq as ->.
  congruence.
Qed.

End RoundTrip.

(** C3.  For every declared tag of [Value], [Direction] and
    [EdgeSensitivity], the conversion returns one of the documented
    literals and re-deriving the tag from that literal gives the tag
    back; hence the conversion is injective on the declared tags. *)
Theorem String_round_trips_on_tags :
  forall (World : Type) (w : World),
    (round_trips gpio.Value_tags gpio.Value_String
       Value_literals Value_ofLiteral w
     /\ injective_on_tags gpio.Value_tags gpio.Value_String w) /\
    (round_trips gpio.Direction_tags gpio.Direction_String
       Direction_literals Direction_ofLiteral w
     /\ injective_on_tags gpio.Direction_tags gpio.Direction_String w) /\
    (round_trips gpio.EdgeSensitivity_tags gpio.EdgeSensitivity_String
       EdgeSensitivity_literals EdgeSensitivity_ofLiteral w
     /\ injective_on_tags gpio.EdgeSensitivity_tags
          gpio.EdgeSensitivity_String w).
Proof.
  intros World w.
  assert (Hv : round_trips gpio.Value_tags gpio.Value_String
                 Value_literals Value_ofLiteral w).
  { intros t Ht. each_tag Ht; eexists; (split; [reflexivity |]);
      (split; [simpl; tauto | reflexivity]). }
  assert (Hd : round_trips gpio.Direction_tags gpio.Direction_String
                 Direction_literals Direction_ofLiteral w).
  { intros t Ht. each_tag Ht; eexists; (split; [reflexivity |]);
      (split; [simpl; tauto | reflexivity]). }
  assert (He : round_trips gpio.EdgeSensitivity_tags
                 gpio.EdgeSensitivity_String
                 EdgeSensitivity_literals EdgeSensitivity_ofLiteral w).
  { intros t Ht. each_tag Ht; eexists; (split; [reflexivity |]);
      (split; [simpl; tauto | reflexivity]). }
  repeat split; try assumption;
    eapply round_trips_injective; eassumption.
Qed.

Lemma String_round_trips_on_tags_witness :
  (exists s, outcome (gpio.EdgeSensitivity_String gpio.FallingEdge) tt
             = Returned s
             /\ List.In s EdgeSensitivity_literals
             /\ EdgeSensitivity_ofLiteral s = Some gpio.FallingEdge) /\
  (outcome (gpio.Direction_String gpio.In) tt
   = outcome (gpio.Direction_String gpio.Out) tt -> gpio.In = gpio.Out).
Proof.
  pose proof (String_round_trips_on_tags unit tt) as (_ & Hd & He).
  split.
  - apply (proj1 He gpio.FallingEdge). simpl. tauto.
  - apply (proj2 Hd gpio.In gpio.Out); simpl; tauto.
Defined.

(** ** The enumerations *)

(** C7.  The tags of each enumeration are pairwise distinct, equality of
    tags is decided by comparing them, and each set is closed: the
    conversion returns a string on a value exactly when the value is one
    of the declared tags. *)
Theorem tags_distinct_and_closed :
  (NoDup gpio.Value_tags /\ NoDup gpio.Direction_tags
   /\ NoDup gpio.EdgeSensitivity_tags) /\
  (gpio.Low <> gpio.High /\ gpio.In <> gpio.Out /\
   gpio.NoEdges <> gpio.RisingEdge /\ gpio.NoEdges <> gpio.FallingEdge /\
   gpio.NoEdges <> gpio.BothEdges /\ gpio.RisingEdge <> gpio.FallingEdge /\
   gpio.RisingEdge <> gpio.BothEdges /\ gpio.FallingEdge <> gpio.BothEdges) /\
  (forall a b : Z, Z.eqb a b = true <-> a = b) /\
  (forall (World : Type) (w : World) (n : Z),
     ((exists s, outcome (gpio.Value_String n) w = Returned s)
        <-> List.In n gpio.Value_tags) /\
     ((exists s, outcome (gpio.Direction_String n) w = Returned s)
        <-> List.In n gpio.Direction_tags) /\
     ((exists s, outcome (gpio.EdgeSensitivity_String n) w = Returned s)
        <-> List.In n gpio.EdgeSensitivity_tags)).
Proof.
  split; [| split; [| split]].
  - repeat split;
      repeat (constructor; [simpl; intuition discriminate |]); constructor.
  - repeat split; discriminate.
  - exact Z.eqb_eq.
  - intros World w n.
    assert (Hdec : forall l : list Z, {List.In n l} + {~ List.In n l})
      by (intros l; apply in_dec, Z.eq_dec).
    split; [| split].
    + split.
      * intros [s Hs]. destruct (Hdec gpio.Value_tags) as [Hin | Hout]; [exact Hin |].
        unfold gpio.Value_String in Hs. rewrite switch_miss in Hs; [discriminate |].
        simpl. intros H. apply Hout. simpl. tauto.
      * intros Ht. each_tag Ht; eexists; reflexivity.
    + split.
      * intros [s Hs]. destruct (Hdec gpio.Direction_tags) as [Hin | Hout]; [exact Hin |].
        unfold gpio.Direction_String in Hs. rewrite switch_miss in Hs; [discriminate |].
        simpl. intros H. apply Hout. simpl. tauto.
      * intros Ht. each_tag Ht; eexists; reflexivity.
    + split.
      * intros [s Hs]. destruct (Hdec gpio.EdgeSensitivity_tags) as [Hin | Hout]; [exact Hin |].
        unfold gpio.EdgeSensitivity_String in Hs. rewrite switch_miss in Hs; [discriminate |].
        simpl. intros H. apply Hout. simpl. tauto.
      * intros Ht. each_tag Ht; eexists; reflexivity.
Qed.

Lemma tags_distinct_and_closed_witness :
  List.In 3 gpio.EdgeSensitivity_tags /\
  ((exists s, outcome (gpio.Value_String 2) tt = Returned s) -> False).
Proof.
  pose proof tags_distinct_and_closed as (_ & _ & _ & Hclosed).
  destruct (Hclosed unit tt 3) as (_ & _ & He).
  destruct (Hclosed unit tt 2) as (Hv & _ & _).
  split.
  - apply He. exists "BothEdges". reflexivity.
  - intros Hret. apply Hv in Hret. simpl in Hret.
    destruct Hret as [H | [H | []]]; discriminate H.
Defined.

(** C9.  The tags are encoded by consecutive integers from 0: [Low],
    [In] and [NoEdges] are 0, [High], [Out] and [RisingEdge] are 1,
    [FallingEdge] is 2 and [BothEdges] is 3.  The declared tags of
    [Value] and [Direction] are the integers from 0 to 1 and those of
    [EdgeSensitivity] the integers from 0 to 3; an integer outside the
    range is not a tag, and the conversion panics on it. *)
Theorem tags_encoded_from_zero :
  (gpio.Low = 0 /\ gpio.High = 1 /\ gpio.In = 0 /\ gpio.Out = 1 /\
   gpio.NoEdges = 0 /\ gpio.RisingEdge = 1 /\ gpio.FallingEdge = 2 /\
   gpio.BothEdges = 3) /\
  (forall n : Z,
     (List.In n gpio.Value_tags <-> 0 <= n <= 1) /\
     (List.In n gpio.Direction_tags <-> 0 <= n <= 1) /\
     (List.In n gpio.EdgeSensitivity_tags <-> 0 <= n <= 3)) /\
  (forall (World : Type) (w : World) (n : Z),
     (~ 0 <= n <= 1 -> panics (outcome (gpio.Value_String n) w) = true) /\
     (~ 0 <= n <= 1 -> panics (outcome (gpio.Direction_String n) w) = true) /\
     (~ 0 <= n <= 3 ->
        panics (outcome (gpio.EdgeSensitivity_String n) w) = true)).
Proof.
  split; [repeat split | split].
  - intros n.
    unfold gpio.Value_tags, gpio.Direction_tags, gpio.EdgeSensitivity_tags,
      gpio.Low, gpio.High, gpio.In, gpio.Out, gpio.NoEdges, gpio.RisingEdge,
      gpio.FallingEdge, gpio.BothEdges.
    simpl. repeat split; lia.
  - intros World w n.
    split; [| split]; intros Hrange;
      unfold gpio.Value_String, gpio.Direction_String,
        gpio.EdgeSensitivity_String;
      (rewrite switch_miss; [reflexivity |]);
      unfold gpio.Low, gpio.High, gpio.In, gpio.Out, gpio.NoEdges,
        gpio.RisingEdge, gpio.FallingEdge, gpio.BothEdges;
      simpl; lia.
Qed.

Lemma tags_encoded_from_zero_witness :
  panics (outcome (gpio.Value_String 2) tt) = true /\
  panics (outcome (gpio.Direction_String (-3)) tt) = true /\
  panics (outcome (gpio.EdgeSensitivity_String 4) tt) = true /\
  List.In 2 gpio.EdgeSensitivity_tags.
Proof.
  pose proof tags_encoded_from_zero as (_ & Hrange & Hout).
  split; [| split; [| split]].
  - apply (Hout unit tt 2). lia.
  - apply (Hout unit tt (-3)). lia.
  - apply (Hout unit tt 4). lia.
  - apply (Hrange 2). lia.
Defined.

(** C10.  The zero value of each enumeration type is its first tag,
    [Low], [In] and [NoEdges] (the sensitivity that disables all
    triggers), so [String] on a variable left at its zero value returns
    and does not panic. *)
Theorem zero_values_are_tags :
  (gpio.Value_zero = gpio.Low /\ gpio.Direction_zero = gpio.In /\
   gpio.EdgeSensitivity_zero = gpio.NoEdges) /\
  (List.In gpio.Value_zero gpio.Value_tags /\
   List.In gpio.Direction_zero gpio.Direction_tags /\
   List.In gpio.EdgeSensitivity_zero gpio.EdgeSensitivity_tags) /\
  (forall (World : Type) (w : World),
     gpio.Value_String gpio.Value_zero w = (Returned "Low", w) /\
     gpio.Direction_String gpio.Direction_zero w = (Returned "In", w) /\
     gpio.EdgeSensitivity_String gpio.EdgeSensitivity_zero w
       = (Returned "NoEdges", w) /\
     panics (outcome (gpio.Value_String gpio.Value_zero) w) = false /\
     panics (outcome (gpio.Direction_String gpio.Direction_zero) w) = false /\
     panics (outcome (gpio.EdgeSensitivity_String gpio.EdgeSensitivity_zero) w)
       = false).
Proof.
  split; [| split].
  - repeat split.
  - repeat split; left; reflexivity.
  - intros World w. repeat split.
Qed.

(** ** The aggregate interfaces *)

(** C5.  The method set of [GpioPin] consists of exactly
    [Value() (Value, error)], [SetValue(Value) error] and
    [SetDirection(Direction) error]; a type implements [GpioPin] if and
    only if it implements [ValueGetter], [ValueSetter] and
    [DirectionSetter] together. *)
Theorem GpioPin_is_its_three_capabilities :
  gpio.method_set gpio.GpioPin
    = [ gpio.mkMethod "Value" [] [gpio.TValue; gpio.TError];
        gpio.mkMethod "SetValue" [gpio.TValue] [gpio.TError];
        gpio.mkMethod "SetDirection" [gpio.TDirection] [gpio.TError] ] /\
  (forall T : list gpio.Method,
     gpio.implements T gpio.GpioPin
     <-> gpio.implements T gpio.ValueGetter
         /\ gpio.implements T gpio.ValueSetter
         /\ gpio.implements T gpio.DirectionSetter).
Proof.
  split; [reflexivity |].
  intros T. apply implements_embeds3.
Qed.

(** A pin type declaring the three methods and one of its own. *)
Lemma GpioPin_is_its_three_capabilities_witness :
  let pin :=
    [ gpio.mkMethod "Close" [] [gpio.TError];
      gpio.mkMethod "SetDirection" [gpio.TDirection] [gpio.TError];
      gpio.mkMethod "SetValue" [gpio.TValue] [gpio.TError];
      gpio.mkMethod "Value" [] [gpio.TValue; gpio.TError] ] in
  gpio.implements pin gpio.ValueGetter
  /\ gpio.implements pin gpio.ValueSetter
  /\ gpio.implements pin gpio.DirectionSetter.
Proof.
  intros pin.
  apply (proj2 GpioPin_is_its_three_capabilities pin).
  apply implementsb_spec. reflexivity.
Defined.

(** C6.  [UpPuller], [DownPuller] and [PullStopper] have one method each,
    [PullUp() error], [PullDown() error] and [StopPulling() error]; the
    method set of [Puller] is these three, and a type implements [Puller]
    if and only if it implements all three. *)
Theorem Puller_is_its_three_capabilities :
  (gpio.method_set gpio.UpPuller
     = [ gpio.mkMethod "PullUp" [] [gpio.TError] ] /\
   gpio.method_set gpio.DownPuller
     = [ gpio.mkMethod "PullDown" [] [gpio.TError] ] /\
   gpio.method_set gpio.PullStopper
     = [ gpio.mkMethod "StopPulling" [] [gpio.TError] ]) /\
  gpio.method_set gpio.Puller
    = [ gpio.mkMethod "PullUp" [] [gpio.TError];
        gpio.mkMethod "PullDown" [] [gpio.TError];
        gpio.mkMethod "StopPulling" [] [gpio.TError] ] /\
  (forall T : list gpio.Method,
     gpio.implements T gpio.Puller
     <-> gpio.implements T gpio.UpPuller
         /\ gpio.implements T gpio.DownPuller
         /\ gpio.implements T gpio.PullStopper).
Proof.
  split; [repeat split | split; [reflexivity |]].
  intros T. apply implements_embeds3.
Qed.

(** A pad type with pull-up only implements [UpPuller] and not [Puller]. *)
Lemma Puller_is_its_three_capabilities_witness :
  let pad := [ gpio.mkMethod "PullUp" [] [gpio.TError] ] in
  gpio.implements pad gpio.UpPuller /\ ~ gpio.implements pad gpio.Puller.
Proof.
  intros pad. split.
  - apply implementsb_spec. reflexivity.
  - intros H.
    apply (proj1 (proj2 (proj2 Puller_is_its_three_capabilities) pad)) in H.
    destruct H as (_ & Hdown & _).
    apply implementsb_spec in Hdown. discriminate Hdown.
Defined.

(** ** Further properties of the textual conversions *)

Section Images.
Context {World : Type}.

(** What a switch over returns of constants can return is the constant of
    one of its cases. *)
Lemma switch_returns_case_constant (tag : Z)
      (cases : list (Z * string)) (msg : string) (w : World) (s : string) :
  outcome (switch tag (map (fun c => (fst c, ret (snd c))) cases) (panic msg)) w
    = Returned s ->
  List.In (tag, s) cases.
Proof.
  induction cases as [| [c lit] rest IH]; simpl.
  - discriminate.
  - destruct (Z.eqb_spec tag c) as [-> | _].
    + intros H. injection H as <-. now left.
    + intros H. right. now apply IH.
Qed.

Lemma Value_String_returned n w s :
  outcome (World := World) (gpio.Value_String n) w = Returned s ->
  List.In (n, s) [(gpio.Low, "Low"); (gpio.High, "High")].
Proof.
  exact (switch_returns_case_constant n
           [(gpio.Low, "Low"); (gpio.High, "High")]
           "Cannot String Invalid Value" w s).
Qed.

Lemma Direction_String_returned n w s :
  outcome (World := World) (gpio.Direction_String n) w = Returned s ->
  List.In (n, s) [(gpio.In, "In"); (gpio.Out, "Out")].
Proof.
  exact (switch_returns_case_constant n
           [(gpio.In, "In"); (gpio.Out, "Out")]
           "Cannot String Invalid Direction" w s).
Qed.

Lemma EdgeSensitivity_String_returned n w s :
  outcome (World := World) (gpio.EdgeSensitivity_String n) w = Returned s ->
  List.In (n, s)
    [(gpio.NoEdges, "NoEdges"); (gpio.BothEdges, "BothEdges");
     (gpio.RisingEdge, "RisingEdge"); (gpio.FallingEdge, "FallingEdge")].
Proof.
  exact (switch_returns_case_constant n
           [(gpio.NoEdges, "NoEdges"); (gpio.BothEdges, "BothEdges");
            (gpio.RisingEdge, "RisingEdge"); (gpio.FallingEdge, "FallingEdge")]
           "Cannot String Invalid EdgeSensitivity" w s).
Qed.

End Images.

(** X1.  The strings a conversion can return, over all integers, are
    exactly the literals of its enumeration: each literal is returned on
    some integer, and nothing else ever is. *)
Theorem String_image_is_literals :
  forall (World : Type) (w : World) (s : string),
    ((exists n, outcome (gpio.Value_String n) w = Returned s)
       <-> List.In s Value_literals) /\
    ((exists n, outcome (gpio.Direction_String n) w = Returned s)
       <-> List.In s Direction_literals) /\
    ((exists n, outcome (gpio.EdgeSensitivity_String n) w = Returned s)
       <-> List.In s EdgeSensitivity_literals).
Proof.
  intros World w s. split; [| split]; split.
  - intros [n Hn]. apply Value_String_returned in Hn.
    each_pair Hn; simpl; tauto.
  - intros Hs. each_tag Hs;
      [exists gpio.Low | exists gpio.High]; reflexivity.
  - intros [n Hn]. apply Direction_String_returned in Hn.
    each_pair Hn; simpl; tauto.
  - intros Hs. each_tag Hs;
      [exists gpio.In | exists gpio.Out]; reflexivity.
  - intros [n Hn]. apply EdgeSensitivity_String_returned in Hn.
    each_pair Hn; simpl; tauto.
  - intros Hs. each_tag Hs;
      [exists gpio.NoEdges | exists gpio.RisingEdge
      | exists gpio.FallingEdge | exists gpio.BothEdges]; reflexivity.
Qed.

Lemma String_image_is_literals_witness :
  (exists n, outcome (gpio.EdgeSensitivity_String n) tt = Returned "BothEdges")
  /\ ((exists n, outcome (gpio.Value_String n) tt = Returned "") -> False).
Proof.
  split.
  - apply (String_image_is_literals unit tt "BothEdges"). simpl. tauto.
  - intros H. apply (String_image_is_literals unit tt "") in H.
    simpl in H. destruct H as [H | [H | []]]; discriminate H.
Defined.

(** X2.  No string is returned by the conversions of two different
    enumerations: the rendering of a [Value] is never that of a
    [Direction] or of an [EdgeSensitivity], nor is a [Direction]'s that
    of an [EdgeSensitivity], although the enumerations share their
    integer encodings. *)
Theorem String_renderings_disjoint :
  forall (World : Type) (w : World) (s : string),
    (forall a b,
       outcome (gpio.Value_String a) w = Returned s ->
       outcome (gpio.Direction_String b) w = Returned s -> False) /\
    (forall a b,
       outcome (gpio.Value_String a) w = Returned s ->
       outcome (gpio.EdgeSensitivity_String b) w = Returned s -> False) /\
    (forall a b,
       outcome (gpio.Direction_String a) w = Returned s ->
       outcome (gpio.EdgeSensitivity_String b) w = Returned s -> False).
Proof.
  intros World w s. split; [| split]; intros a b Ha Hb.
  - apply Value_String_returned in Ha. apply Direction_String_returned in Hb.
    each_pair Ha; simpl in Hb; intuition discriminate.
  - apply Value_String_returned in Ha.
    apply EdgeSensitivity_String_returned in Hb.
    each_pair Ha; simpl in Hb; intuition discriminate.
  - apply Direction_String_returned in Ha.
    apply EdgeSensitivity_String_returned in Hb.
    each_pair Ha; simpl in Hb; intuition discriminate.
Qed.

Lemma String_renderings_disjoint_witness :
  outcome (gpio.Direction_String gpio.In) tt <> Returned "Low".
Proof.
  intros H.
  exact (proj1 (String_renderings_disjoint unit tt "Low")
           gpio.Low gpio.In eq_refl H).
Defined.

(** *** The order of the cases *)

Section CaseOrder.
Context {World A : Type}.
Implicit Types (cases : list (Z * Go World A)) (d : Go World A).

(** With pairwise distinct case constants at most one case matches, so
    the order in which a switch lists its cases does not matter. *)
Lemma switch_permutation tag cases cases' d :
  NoDup (map fst cases) -> Permutation cases cases' ->
  switch tag cases d = switch tag cases' d.
Proof.
  intros Hnd Hperm. induction Hperm as
      [| [c body] l l' Hperm IH | [c1 b1] [c2 b2] l | l l' l'' H1 IH1 H2 IH2].
  - reflexivity.
  - simpl in *. inversion Hnd; subst.
    destruct (Z.eqb tag c); [reflexivity | now apply IH].
  - simpl in *. inversion Hnd as [| ? ? Hnotin _]; subst.
    destruct (Z.eqb_spec tag c1), (Z.eqb_spec tag c2); try reflexivity.
    subst. exfalso. apply Hnotin. now left.
  - rewrite IH1 by assumption. apply IH2.
    eapply Permutation_NoDup; [| exact Hnd].
    now apply Permutation_map.
Qed.

End CaseOrder.

(** X3.  [EdgeSensitivity.String] lists its cases as [NoEdges],
    [BothEdges], [RisingEdge], [FallingEdge]; on every integer it behaves
    as the switch that lists them in the order of their declaration. *)
Theorem EdgeSensitivity_String_case_order :
  forall (World : Type) (n : Z),
    gpio.EdgeSensitivity_String (World := World) n
    = switch n
        [ (gpio.NoEdges, ret "NoEdges");
          (gpio.RisingEdge, ret "RisingEdge");
          (gpio.FallingEdge, ret "FallingEdge");
          (gpio.BothEdges, ret "BothEdges") ]
        (panic "Cannot String Invalid EdgeSensitivity").
Proof.
  intros World n. unfold gpio.EdgeSensitivity_String.
  apply switch_permutation.
  - simpl. repeat (constructor; [simpl; intuition discriminate |]). constructor.
  - apply perm_skip.
    eapply perm_trans; [apply perm_swap |].
    apply perm_skip. apply perm_swap.
Qed.

(** ** Conversions between the interfaces *)

Section Conversions.

Lemma converts_to_decided a b :
  converts_to a b
  <-> gpio.implementsb (gpio.method_set (declared a)) (declared b) = true.
Proof. unfold converts_to. symmetry. apply implementsb_spec. Qed.

Lemma implements_monotone T T' i :
  incl T T' -> gpio.implements T i -> gpio.implements T' i.
Proof. intros Hincl Hi m Hm. apply Hincl, Hi, Hm. Qed.

End Conversions.

(** X4.  An interface of the package converts to another one exactly
    when it is the same interface or embeds it: [GpioPin] converts to
    [ValueGetter], [ValueSetter] and [DirectionSetter], [Puller] to
    [UpPuller], [DownPuller] and [PullStopper], and no other conversion
    between two different interfaces exists. *)
Theorem conversions_follow_embedding :
  forall a b : InterfaceName,
    converts_to a b <-> a = b \/ embeds a b = true.
Proof.
  intros a b. rewrite converts_to_decided.
  destruct a, b; simpl;
    (split; [intros H; first [discriminate H | now left | now right]
            | intros [H | H]; first [reflexivity | discriminate H]]).
Qed.

Lemma conversions_follow_embedding_witness :
  converts_to IGpioPin IValueSetter /\ ~ converts_to IValueGetter IValueSetter.
Proof.
  split.
  - apply (conversions_follow_embedding IGpioPin IValueSetter).
    right. reflexivity.
  - intros H.
    apply (conversions_follow_embedding IValueGetter IValueSetter) in H.
    destruct H as [H | H]; discriminate H.
Defined.

(** X5.  The interfaces of the package specify eight methods in all,
    with pairwise distinct names, so their method sets join into one
    method set without a clash of names; a method set implements all
    nine interfaces if and only if it contains these eight
    specifications. *)
Theorem interface_methods_names_distinct :
  length interface_methods = 8%nat /\
  NoDup (map gpio.m_name interface_methods) /\
  (forall T : list gpio.Method,
     (forall name, gpio.implements T (declared name))
     <-> incl interface_methods T).
Proof.
  split; [reflexivity | split].
  - simpl. repeat (constructor; [simpl; intuition discriminate |]). constructor.
  - intros T. split.
    + intros Hall m Hm. unfold interface_methods in Hm.
      apply in_flat_map in Hm. destruct Hm as (name & _ & Hm).
      exact (Hall name m Hm).
    + intros Hincl name. apply (implements_monotone interface_methods); [exact Hincl |].
      apply implementsb_spec. destruct name; reflexivity.
Qed.

Lemma interface_methods_names_distinct_witness :
  gpio.implements interface_methods gpio.Puller /\
  gpio.implements interface_methods gpio.EdgeWaiter.
Proof.
  pose proof interface_methods_names_distinct as (_ & _ & Hall).
  split.
  - apply (proj2 (Hall interface_methods) (incl_refl _) IPuller).
  - apply (proj2 (Hall interface_methods) (incl_refl _) IEdgeWaiter).
Defined.

(** X6.  Every method of every interface of the package reports failure
    through an [error], its last result; the parameters and the other
    results are enumerations of the package, and [Value] is the only
    method with a result besides the error. *)
Theorem every_method_returns_error :
  forall (name : InterfaceName) (m : gpio.Method),
    List.In m (gpio.method_set (declared name)) ->
    last (gpio.m_results m) gpio.TValue = gpio.TError /\
    ~ List.In gpio.TError (gpio.m_params m) /\
    (gpio.m_results m = [gpio.TError]
     \/ m = gpio.mkMethod "Value" [] [gpio.TValue; gpio.TError]).
Proof.
  intros name m Hm.
  assert (Hall : List.In m interface_methods).
  { apply (proj1 (implementsb_spec interface_methods (declared name)));
      [destruct name; reflexivity | exact Hm]. }
  clear Hm. unfold interface_methods in Hall. simpl in Hall.
  repeat (destruct Hall as [<- | Hall];
          [simpl; repeat split;
           first [intuition discriminate | now left | now right] |]).
  contradiction.
Qed.

Lemma every_method_returns_error_witness :
  last [gpio.TValue; gpio.TError] gpio.TValue = gpio.TError.
Proof.
  apply (every_method_returns_error IGpioPin
           (gpio.mkMethod "Value" [] [gpio.TValue; gpio.TError])).
  simpl. tauto.
Defined.
